(** * utility::SmartPointer — a move-only owning pointer with a deleter

    Shallow embedding of [include/utility/smart_pointer.h].

    A [SmartPointer<Ty, DTy>] is a C++ object with identity: member
    functions receive it by reference ([this], [right], [second]) and
    two references may alias.  The embedding therefore keeps the live
    objects in a store indexed by location and threads that store
    through every member function in a small state-and-failure monad.

    The deleter is a template parameter; what a call [m_deleter(p)]
    does to the resource is the deleter's own business.  The embedding
    records each call — which deleter, on which pointer, and the object
    store as it stood when the call was made — so that "how often" and
    "in which order" are statements about the recorded list. *)

From stdpp Require Import gmap list.
From Stdlib Require Import NArith.

Set Default Proof Using "Type".

(** ** Data *)

(** [pointer_type] is [Ty*]: a raw address, [nullptr] being address 0. *)
Abbreviation pointer_type := N (only parsing).
Definition nullptr : pointer_type := 0%N.

(** [if (p)] on a raw pointer. *)
Definition to_bool (p : pointer_type) : bool := negb (N.eqb p nullptr).

(** The identity of a [SmartPointer] object (where it lives). *)
Abbreviation loc := nat (only parsing).

(** What the class needs from its template parameter [DTy]:
    default construction (the member [deleter_type m_deleter;] without
    initialiser), and the state in which a deleter is left once it has
    been moved from, or move-assigned to itself.  For
    [std::default_delete], a function pointer or any trivially copyable
    functor the last two are the identity. *)
Class Deleter (DTy : Type) := {
  default_init : DTy;
  moved_from : DTy -> DTy;
  self_moved : DTy -> DTy
}.

(** What a throwing expression can raise through the class. *)
Inductive exception :=
  | bad_alloc
  | user_exception (code : nat).

Section Model.

Context {Ty Args DTy : Type} `{!Deleter DTy}.

(** The two data members, in declaration order. *)
Record SmartPointer := {
  m_pointer : pointer_type;
  m_deleter : DTy
}.

(** One call [d(p)] of a deleter, with the objects as the callee could
    observe them at that moment. *)
Record Invocation := {
  inv_deleter : DTy;
  inv_arg : pointer_type;
  inv_objects : gmap loc SmartPointer
}.

Record World := {
  objects : gmap loc SmartPointer;      (* live SmartPointer objects *)
  heap : gmap pointer_type Ty;          (* values placed by [new] *)
  invocations : list Invocation         (* deleter calls, oldest first *)
}.

Definition set_objects (f : gmap loc SmartPointer -> gmap loc SmartPointer)
    (w : World) : World :=
  {| objects := f (objects w); heap := heap w; invocations := invocations w |}.

Definition set_heap (f : gmap pointer_type Ty -> gmap pointer_type Ty)
    (w : World) : World :=
  {| objects := objects w; heap := f (heap w); invocations := invocations w |}.

Definition record_invocation (i : Invocation) (w : World) : World :=
  {| objects := objects w; heap := heap w;
     invocations := invocations w ++ [i] |}.

(** ** Effects

    A member function either returns, leaves by an exception, or has
    no defined behaviour (it touched an object that is not alive). *)
Inductive Outcome (A : Type) :=
  | Ok (a : A) (w : World)
  | Throw (e : exception) (w : World)
  | Undefined.
Global Arguments Ok {A} a w.
Global Arguments Throw {A} e w.
Global Arguments Undefined {A}.

Definition M (A : Type) : Type := World -> Outcome A.

Definition ret {A} (a : A) : M A := fun w => Ok a w.

Definition bind {A B} (m : M A) (k : A -> M B) : M B :=
  fun w =>
    match m w with
    | Ok a w' => k a w'
    | Throw e w' => Throw e w'
    | Undefined => Undefined
    end.

Definition throw {A} (e : exception) : M A := fun w => Throw e w.

Local Notation "x <- m ;; k" := (bind m (fun x => k))
  (at level 100, m at next level, right associativity).
Local Notation "m ;;; k" := (bind m (fun _ => k))
  (at level 100, right associativity).

(** *** Objects and their members *)

Definition read (this : loc) : M SmartPointer :=
  fun w =>
    match objects w !! this with
    | Some o => Ok o w
    | None => Undefined
    end.

Definition load_pointer (this : loc) : M pointer_type :=
  o <- read this ;; ret (m_pointer o).

Definition load_deleter (this : loc) : M DTy :=
  o <- read this ;; ret (m_deleter o).

Definition store_pointer (this : loc) (p : pointer_type) : M unit :=
  o <- read this ;;
  fun w => Ok tt (set_objects <[this := {| m_pointer := p; m_deleter := m_deleter o |}]> w).

Definition store_deleter (this : loc) (d : DTy) : M unit :=
  o <- read this ;;
  fun w => Ok tt (set_objects <[this := {| m_pointer := m_pointer o; m_deleter := d |}]> w).

(** A constructor's member initialiser list: the object comes to life
    in storage that holds no live object. *)
Definition initialise (this : loc) (p : pointer_type) (d : DTy) : M unit :=
  fun w =>
    match objects w !! this with
    | Some _ => Undefined
    | None => Ok tt (set_objects <[this := {| m_pointer := p; m_deleter := d |}]> w)
    end.

(** The end of a destructor: the object is no longer alive. *)
Definition end_lifetime (this : loc) : M unit :=
  read this ;;; fun w => Ok tt (set_objects (delete this) w).

(** [std::exchange(m_pointer, p)]. *)
Definition exchange_pointer (this : loc) (p : pointer_type) : M pointer_type :=
  old <- load_pointer this ;;
  store_pointer this p ;;;
  ret old.

(** [m_deleter(p)]. *)
Definition call_deleter (this : loc) (p : pointer_type) : M unit :=
  d <- load_deleter this ;;
  fun w => Ok tt (record_invocation
                    {| inv_deleter := d; inv_arg := p; inv_objects := objects w |} w).

(** [std::move(right.deleter())] used as an initialiser: the value of
    [right]'s deleter, which is left moved-from. *)
Definition move_deleter_out (right : loc) : M DTy :=
  d <- load_deleter right ;;
  store_deleter right (moved_from d) ;;;
  ret d.

(** [m_deleter = std::forward<deleter_type>(right.m_deleter)]:
    a move assignment between two deleter members, possibly the same
    one. *)
Definition move_assign_deleter (this right : loc) : M unit :=
  if decide (this = right) then
    d <- load_deleter this ;;
    store_deleter this (self_moved d)
  else
    d <- move_deleter_out right ;;
    store_deleter this d.

(** ** Member functions *)

(** [pointer_type release() noexcept] *)
Definition release (this : loc) : M pointer_type :=
  exchange_pointer this nullptr.

(** [pointer_type get() const noexcept] *)
Definition get (this : loc) : M pointer_type := load_pointer this.

(** [const bool empty() const noexcept] *)
Definition empty (this : loc) : M bool :=
  p <- load_pointer this ;; ret (N.eqb p nullptr).

(** [operator bool() const noexcept] *)
Definition operator_bool (this : loc) : M bool :=
  p <- load_pointer this ;; ret (negb (N.eqb p nullptr)).

(** [const deleter_type& deleter() const noexcept] *)
Definition deleter (this : loc) : M DTy := load_deleter this.

(** [pointer_type operator->() const noexcept] *)
Definition operator_arrow (this : loc) : M pointer_type := load_pointer this.

(** [value_type& operator*() const noexcept]: [*m_pointer], defined
    only where the pointer refers to a value. *)
Definition operator_star (this : loc) : M Ty :=
  p <- load_pointer this ;;
  fun w =>
    match heap w !! p with
    | Some v => Ok v w
    | None => Undefined
    end.

(** [operator pointer_type() const noexcept] *)
Definition operator_pointer_type (this : loc) : M pointer_type :=
  load_pointer this.

(** *** Constructors

    [this] is the storage in which the new object is built. *)

(** [SmartPointer() = default] *)
Definition SmartPointer_default (this : loc) : M unit :=
  initialise this nullptr default_init.

(** [SmartPointer(pointer_type pointer)] *)
Definition SmartPointer_ptr (this : loc) (pointer : pointer_type) : M unit :=
  initialise this pointer default_init.

(** [SmartPointer(pointer_type pointer, const deleter_type& deleter)] *)
Definition SmartPointer_ptr_deleter (this : loc) (pointer : pointer_type)
    (deleter : DTy) : M unit :=
  initialise this pointer deleter.

(** [SmartPointer(SmartPointer&& right)], and with the same initialiser
    list [SmartPointer(SmartPointer<P, D>&& right)]:
    [m_pointer(std::move(right.release())),
     m_deleter(std::move(right.deleter()))]. *)
Definition SmartPointer_move (this right : loc) : M unit :=
  p <- release right ;;
  d <- move_deleter_out right ;;
  initialise this p d.

(** *** Destructor

    [~SmartPointer() noexcept { if (m_pointer) m_deleter(m_pointer); }] *)
Definition destructor (this : loc) : M unit :=
  p <- load_pointer this ;;
  (if to_bool p then call_deleter this p else ret tt) ;;;
  end_lifetime this.

(** *** assign

    [void assign(pointer_type& ptr = nullptr) noexcept] *)
Definition assign (this : loc) (ptr : pointer_type) : M unit :=
  old <- exchange_pointer this ptr ;;
  if to_bool old then call_deleter this old else ret tt.

(** [void assign(pointer_type&& ptr) noexcept] *)
Definition assign_rvalue (this : loc) (ptr : pointer_type) : M unit :=
  old <- exchange_pointer this ptr ;;
  if to_bool old then call_deleter this old else ret tt.

(** *** Assignment operators *)

(** [SmartPointer& operator=(SmartPointer&& right)] *)
Definition operator_assign_move (this right : loc) : M unit :=
  p <- release right ;;
  assign_rvalue this p ;;;
  move_assign_deleter this right.

(** [SmartPointer& operator=(SmartPointer& right)] *)
Definition operator_assign_lvalue (this right : loc) : M unit :=
  p <- release right ;;
  assign_rvalue this p ;;;
  move_assign_deleter this right.

(** [SmartPointer& operator=(pointer_type right)]: the parameter is a
    named variable, so the call binds to the lvalue overload of
    [assign]. *)
Definition operator_assign_pointer (this : loc) (right : pointer_type) : M unit :=
  assign this right.

(** *** swap *)

(** [std::swap(a, b)] on the pointer members of two objects:
    [tmp = a; a = b; b = tmp]. *)
Definition std_swap_pointers (a b : loc) : M unit :=
  tmp <- load_pointer a ;;
  pb <- load_pointer b ;;
  store_pointer a pb ;;;
  store_pointer b tmp.

(** [void swap(SmartPointer<value_type>& second)].  [second] is a
    [SmartPointer<Ty>], the class itself when [DTy] is defaulted; only
    its [m_pointer] is named. *)
Definition swap (this second : loc) : M unit :=
  std_swap_pointers this second.

(** [void swap(SmartPointer<value_type>&& second)]: the body names the
    same exchange, [std::swap(m_pointer, std::move(second.m_pointer))]. *)
Definition swap_rvalue (this second : loc) : M unit :=
  std_swap_pointers this second.

(** [void swap(pointer_type& second)]: the raw pointer variable is
    passed in and its new value handed back. *)
Definition swap_pointer (this : loc) (second : pointer_type) : M pointer_type :=
  tmp <- load_pointer this ;;
  store_pointer this second ;;;
  ret tmp.

(** *** Conversion to [SmartPointer<P>]

    [template <class P> operator SmartPointer<P>() const noexcept
       { return SmartPointer<P>(m_pointer); }]
    The returned object is built in [result]. *)
Definition operator_SmartPointer (this result : loc) : M unit :=
  p <- load_pointer this ;;
  SmartPointer_ptr result p.

(** *** create *)

(** The free store behind [new]: given the values already placed, it
    hands out an address or has none left. *)
Variable operator_new : gmap pointer_type Ty -> option pointer_type.

(** The constructor [value_type(args...)], which may throw. *)
Variable value_type : Args -> exception + Ty.

(** The expression [new value_type(args...)]: storage is obtained
    first ([std::bad_alloc] when there is none); a constructor that
    throws gives the storage back. *)
Definition new_value_type (args : Args) : M pointer_type :=
  fun w =>
    match operator_new (heap w) with
    | None => Throw bad_alloc w
    | Some p =>
        match value_type args with
        | inl e => Throw e w
        | inr v => Ok p (set_heap <[p := v]> w)
        end
    end.

(** [static SmartPointer<value_type> create(Args&&... args)] *)
Definition create (result : loc) (args : Args) : M unit :=
  p <- new_value_type args ;;
  SmartPointer_ptr result p.

End Model.

Global Arguments SmartPointer DTy : clear implicits.
Global Arguments Invocation DTy : clear implicits.
Global Arguments World Ty DTy : clear implicits.

Notation "x <- m ;; k" := (bind m (fun x => k))
  (at level 100, m at next level, right associativity, only parsing).
Notation "m ;;; k" := (bind m (fun _ => k))
  (at level 100, right associativity, only parsing).

(** ** Deleter types used in the concrete runs *)

(** [std::default_delete<Ty>]: an empty class. *)
#[global] Instance default_delete : Deleter unit := {|
  default_init := tt;
  moved_from d := d;
  self_moved d := d
|}.

(** A functor with one word of state that identifies it; a moved-from
    functor is reset to 0, the state of a default-constructed one. *)
#[global] Instance numbered_functor : Deleter nat := {|
  default_init := 0;
  moved_from _ := 0;
  self_moved d := d
|}.

(** The deleter calls made between two worlds, given those recorded in
    the later one: what follows the earlier record. *)
Definition invocations_since {DTy} (before after : list (Invocation DTy))
    : list (Invocation DTy) :=
  drop (length before) after.

(** How many of the calls were made on pointer [p]. *)
Definition count_on {DTy} (p : pointer_type) (l : list (Invocation DTy)) : nat :=
  length (filter (fun i => inv_arg i = p) l).

(** ** Shorthands for the states the members reach *)

Section Derived.

Context {Ty DTy : Type} `{!Deleter DTy}.
Implicit Types (w : World Ty DTy) (o : SmartPointer DTy) (p : pointer_type).
Implicit Types (this : loc) (d : DTy).

(** The object [o] with another pointer, or another deleter. *)
Definition holding o p : SmartPointer DTy :=
  {| m_pointer := p; m_deleter := m_deleter o |}.
Definition deleting o d : SmartPointer DTy :=
  {| m_pointer := m_pointer o; m_deleter := d |}.

(** The world after [assign]: the new pointer is in place, and if the
    old one was not null its deleter call is recorded on top of that. *)
Definition after_assign w this o p : World Ty DTy :=
  let w1 := set_objects <[this := holding o p]> w in
  if to_bool (m_pointer o)
  then record_invocation
         {| inv_deleter := m_deleter o; inv_arg := m_pointer o;
            inv_objects := objects w1 |} w1
  else w1.

(** The source of a move: null pointer, moved-from deleter. *)
Definition moved_out o : SmartPointer DTy :=
  {| m_pointer := nullptr; m_deleter := moved_from (m_deleter o) |}.

End Derived.

(** ** Concrete worlds *)

(** Objects with [numbered_functor] deleters, nothing on the heap and no
    call made so far. *)
Definition world_of (m : gmap loc (SmartPointer nat)) : World nat nat :=
  {| objects := m; heap := ∅; invocations := [] |}.

(** One owner, at location 0, of pointer 1 with deleter 7. *)
Definition one_owner : World nat nat :=
  world_of {[ 0 := {| m_pointer := 1; m_deleter := 7 |} ]}.

(** A second owner, at location 1, of pointer 2 with deleter 9. *)
Definition two_owners : World nat nat :=
  world_of {[ 0 := {| m_pointer := 1; m_deleter := 7 |};
              1 := {| m_pointer := 2; m_deleter := 9 |} ]}.

(** An empty owner at location 0 with deleter 7. *)
Definition empty_owner : World nat nat :=
  world_of {[ 0 := {| m_pointer := nullptr; m_deleter := 7 |} ]}.

(** No object, nothing on the heap, no call made; owners to come have
    [default_delete] deleters. *)
Definition no_objects : World nat unit :=
  {| objects := ∅; heap := ∅; invocations := [] |}.

(** A free store with room for [capacity] values, handing out the
    addresses 1, 2, ... in turn. *)
Definition bounded_store {Ty} (capacity : nat) (hp : gmap pointer_type Ty)
    : option pointer_type :=
  if decide (size hp < capacity) then Some (N.of_nat (S (size hp))) else None.

(** A [value_type] with one [nat] member, whose constructor refuses
    nothing. *)
Definition boxed_nat (n : nat) : exception + nat := inr n.

(** What [a.get()] returns at the moment of a recorded deleter call. *)
Definition observed_pointer {DTy} (i : Invocation DTy) (a : loc) : option pointer_type :=
  m_pointer <$> inv_objects i !! a.

(** The ordering of [assign] as the specification words it: the deleter
    is called on the old pointer [h1] while [a.get()] does not yet
    return the new pointer [h2]. *)
Definition destroy_before_adopt {Ty DTy} `{!Deleter DTy}
    (w : World Ty DTy) (a : loc) (h1 h2 : pointer_type) : Prop :=
  exists w' i,
    assign a h2 w = Ok tt w' /\
    invocations w' = invocations w ++ [i] /\
    inv_arg i = h1 /\
    observed_pointer i a ≠ Some h2.

(** The calls a member makes when it replaces the pointer held by [o]:
    one call of [o]'s deleter on the old pointer when that is not null,
    and none when it is. *)
Definition replacement_calls {DTy} (l : list (Invocation DTy))
    (o : SmartPointer DTy) : Prop :=
  if to_bool (m_pointer o)
  then exists i, l = [i] /\ inv_arg i = m_pointer o /\ inv_deleter i = m_deleter o
  else l = [].



(** ** Running the members step by step *)

Section Steps.

Context {Ty DTy : Type} `{!Deleter DTy}.
Implicit Types (w : World Ty DTy) (o : SmartPointer DTy) (p h : pointer_type).
Implicit Types (this right second : loc).

Lemma bind_ok {A B} (m : M A) (k : A -> M B) w a w' :
  m w = Ok a w' -> bind m k w = k a w'.
Proof. unfold bind. by intros ->. Qed.

Lemma read_ok w this o :
  objects w !! this = Some o -> read this w = Ok o w.
Proof. unfold read. by intros ->. Qed.

Lemma load_pointer_ok w this o :
  objects w !! this = Some o -> load_pointer this w = Ok (m_pointer o) w.
Proof. intros H. unfold load_pointer. by rewrite (bind_ok _ _ _ _ _ (read_ok _ _ _ H)). Qed.

Lemma load_deleter_ok w this o :
  objects w !! this = Some o -> load_deleter this w = Ok (m_deleter o) w.
Proof. intros H. unfold load_deleter. by rewrite (bind_ok _ _ _ _ _ (read_ok _ _ _ H)). Qed.

Lemma store_pointer_ok w this o p :
  objects w !! this = Some o ->
  store_pointer this p w =
    Ok tt (set_objects <[this := {| m_pointer := p; m_deleter := m_deleter o |}]> w).
Proof. intros H. unfold store_pointer. by rewrite (bind_ok _ _ _ _ _ (read_ok _ _ _ H)). Qed.

Lemma store_deleter_ok w this o d :
  objects w !! this = Some o ->
  store_deleter this d w =
    Ok tt (set_objects <[this := {| m_pointer := m_pointer o; m_deleter := d |}]> w).
Proof. intros H. unfold store_deleter. by rewrite (bind_ok _ _ _ _ _ (read_ok _ _ _ H)). Qed.

Lemma initialise_ok w this p d :
  objects w !! this = None ->
  initialise this p d w =
    Ok tt (set_objects <[this := {| m_pointer := p; m_deleter := d |}]> w).
Proof. unfold initialise. by intros ->. Qed.

Lemma end_lifetime_ok w this o :
  objects w !! this = Some o ->
  end_lifetime this w = Ok tt (set_objects (delete this) w).
Proof. intros H. unfold end_lifetime. by rewrite (bind_ok _ _ _ _ _ (read_ok _ _ _ H)). Qed.

Lemma exchange_pointer_ok w this o p :
  objects w !! this = Some o ->
  exchange_pointer this p w =
    Ok (m_pointer o)
       (set_objects <[this := {| m_pointer := p; m_deleter := m_deleter o |}]> w).
Proof.
  intros H. unfold exchange_pointer.
  rewrite (bind_ok _ _ _ _ _ (load_pointer_ok _ _ _ H)).
  by rewrite (bind_ok _ _ _ _ _ (store_pointer_ok _ _ _ p H)).
Qed.

Lemma call_deleter_ok w this o p :
  objects w !! this = Some o ->
  call_deleter this p w =
    Ok tt (record_invocation
             {| inv_deleter := m_deleter o; inv_arg := p; inv_objects := objects w |} w).
Proof.
  intros H. unfold call_deleter.
  by rewrite (bind_ok _ _ _ _ _ (load_deleter_ok _ _ _ H)).
Qed.

Lemma to_bool_true p : p ≠ nullptr -> to_bool p = true.
Proof. unfold to_bool. intros H. by apply negb_true_iff, N.eqb_neq. Qed.

Lemma to_bool_nullptr : to_bool nullptr = false.
Proof. reflexivity. Qed.

Lemma invocations_since_app {D} (l k : list (Invocation D)) :
  invocations_since l (l ++ k) = k.
Proof. unfold invocations_since. by rewrite drop_app_length. Qed.

End Steps.

(** ** What each member does to the world *)

Section Members.

Context {Ty DTy : Type} `{!Deleter DTy}.
Implicit Types (w : World Ty DTy) (o : SmartPointer DTy) (p h : pointer_type).
Implicit Types (this right second result : loc) (d : DTy).

Lemma release_ok w this o :
  objects w !! this = Some o ->
  release this w = Ok (m_pointer o) (set_objects <[this := holding o nullptr]> w).
Proof. intros H. unfold release. by rewrite (exchange_pointer_ok _ _ _ _ H). Qed.

Lemma get_ok w this o :
  objects w !! this = Some o -> get this w = Ok (m_pointer o) w.
Proof. apply load_pointer_ok. Qed.

Lemma empty_ok w this o :
  objects w !! this = Some o -> empty this w = Ok (N.eqb (m_pointer o) nullptr) w.
Proof.
  intros H. unfold empty. by rewrite (bind_ok _ _ _ _ _ (load_pointer_ok _ _ _ H)).
Qed.

Lemma deleter_ok w this o :
  objects w !! this = Some o -> deleter this w = Ok (m_deleter o) w.
Proof. apply load_deleter_ok. Qed.

Lemma assign_ok w this o p :
  objects w !! this = Some o ->
  assign this p w = Ok tt (after_assign w this o p).
Proof.
  intros H. unfold assign, after_assign.
  rewrite (bind_ok _ _ _ _ _ (exchange_pointer_ok _ _ _ p H)).
  destruct (to_bool (m_pointer o)); [|done].
  rewrite (call_deleter_ok _ this (holding o p)); [done|].
  cbn. apply lookup_insert_eq.
Qed.

Lemma assign_rvalue_eq this p : assign_rvalue (Ty:=Ty) (DTy:=DTy) this p = assign this p.
Proof. reflexivity. Qed.

Lemma objects_after_assign w this o p :
  objects (after_assign w this o p) = <[this := holding o p]> (objects w).
Proof. unfold after_assign. by destruct (to_bool _). Qed.

Lemma invocations_after_assign w this o p :
  invocations (after_assign w this o p) =
  invocations w ++
    (if to_bool (m_pointer o)
     then [ {| inv_deleter := m_deleter o; inv_arg := m_pointer o;
               inv_objects := <[this := holding o p]> (objects w) |} ]
     else []).
Proof.
  unfold after_assign. destruct (to_bool _); cbn; [done|]. by rewrite app_nil_r.
Qed.

Lemma destructor_ok w this o :
  objects w !! this = Some o ->
  destructor this w =
    Ok tt (set_objects (delete this)
             (if to_bool (m_pointer o)
              then record_invocation
                     {| inv_deleter := m_deleter o; inv_arg := m_pointer o;
                        inv_objects := objects w |} w
              else w)).
Proof.
  intros H. unfold destructor.
  rewrite (bind_ok _ _ _ _ _ (load_pointer_ok _ _ _ H)).
  destruct (to_bool (m_pointer o)).
  - rewrite (bind_ok _ _ _ _ _ (call_deleter_ok _ _ _ _ H)).
    by erewrite end_lifetime_ok.
  - cbn. by erewrite end_lifetime_ok.
Qed.

Lemma move_deleter_out_ok w right o :
  objects w !! right = Some o ->
  move_deleter_out right w =
    Ok (m_deleter o) (set_objects <[right := deleting o (moved_from (m_deleter o))]> w).
Proof.
  intros H. unfold move_deleter_out.
  rewrite (bind_ok _ _ _ _ _ (load_deleter_ok _ _ _ H)).
  by rewrite (bind_ok _ _ _ _ _ (store_deleter_ok _ _ _ _ H)).
Qed.

Lemma SmartPointer_move_ok w this right o :
  objects w !! right = Some o ->
  objects w !! this = None ->
  SmartPointer_move this right w =
    Ok tt (set_objects (fun m => <[this := o]> (<[right := moved_out o]> m)) w).
Proof.
  intros Hr Ht. unfold SmartPointer_move.
  rewrite (bind_ok _ _ _ _ _ (release_ok _ _ _ Hr)).
  erewrite bind_ok; last first.
  { apply move_deleter_out_ok. cbn. apply lookup_insert_eq. }
  cbn. rewrite initialise_ok.
  - destruct o, w. unfold set_objects, deleting, holding, moved_out; cbn.
    by rewrite insert_insert_eq.
  - assert (this ≠ right) by congruence.
    cbn. by rewrite !lookup_insert_ne.
Qed.

Lemma std_swap_pointers_ok w a b oa ob :
  objects w !! a = Some oa ->
  objects w !! b = Some ob ->
  std_swap_pointers a b w =
    Ok tt (set_objects
             (fun m => <[b := holding ob (m_pointer oa)]>
                         (<[a := holding oa (m_pointer ob)]> m)) w).
Proof.
  intros Ha Hb. unfold std_swap_pointers.
  rewrite (bind_ok _ _ _ _ _ (load_pointer_ok _ _ _ Ha)).
  rewrite (bind_ok _ _ _ _ _ (load_pointer_ok _ _ _ Hb)).
  rewrite (bind_ok _ _ _ _ _ (store_pointer_ok _ _ _ _ Ha)).
  destruct (decide (a = b)) as [->|Hne].
  - assert (oa = ob) as -> by congruence.
    erewrite store_pointer_ok; [|cbn; apply lookup_insert_eq]. done.
  - erewrite store_pointer_ok; [|cbn; by rewrite lookup_insert_ne]. done.
Qed.

End Members.

Section Assignment.

Context {Ty DTy : Type} `{!Deleter DTy}.
Implicit Types (w : World Ty DTy) (o : SmartPointer DTy) (p h : pointer_type).
Implicit Types (this right result : loc) (d : DTy).

Lemma move_assign_deleter_ok w this right ot or :
  objects w !! this = Some ot ->
  objects w !! right = Some or ->
  this ≠ right ->
  move_assign_deleter this right w =
    Ok tt (set_objects
             (fun m => <[this := deleting ot (m_deleter or)]>
                         (<[right := deleting or (moved_from (m_deleter or))]> m)) w).
Proof.
  intros Ht Hr Hne. unfold move_assign_deleter.
  rewrite decide_False by done.
  rewrite (bind_ok _ _ _ _ _ (move_deleter_out_ok _ _ _ Hr)).
  rewrite (store_deleter_ok _ this ot); [done|].
  cbn. by rewrite lookup_insert_ne.
Qed.

Lemma move_assign_deleter_self w this o :
  objects w !! this = Some o ->
  move_assign_deleter this this w =
    Ok tt (set_objects <[this := deleting o (self_moved (m_deleter o))]> w).
Proof.
  intros H. unfold move_assign_deleter.
  rewrite decide_True by done.
  rewrite (bind_ok _ _ _ _ _ (load_deleter_ok _ _ _ H)).
  by rewrite (store_deleter_ok _ _ _ _ H).
Qed.

(** An assignment operator is [release] on the source, [assign] on the
    destination, then the move of the deleter. *)
Lemma operator_assign_move_steps w this right w1 w2 p :
  release right w = Ok p w1 ->
  assign this p w1 = Ok tt w2 ->
  operator_assign_move this right w = move_assign_deleter this right w2.
Proof.
  intros H1 H2. unfold operator_assign_move.
  rewrite (bind_ok _ _ _ _ _ H1). rewrite assign_rvalue_eq.
  by rewrite (bind_ok _ _ _ _ _ H2).
Qed.

Lemma operator_SmartPointer_ok w this result o :
  objects w !! this = Some o ->
  objects w !! result = None ->
  operator_SmartPointer this result w =
    Ok tt (set_objects
             <[result := {| m_pointer := m_pointer o; m_deleter := default_init |}]> w).
Proof.
  intros Ht Hr. unfold operator_SmartPointer.
  rewrite (bind_ok _ _ _ _ _ (load_pointer_ok _ _ _ Ht)).
  unfold SmartPointer_ptr. by rewrite initialise_ok.
Qed.

End Assignment.

(** ** The properties *)

Section Properties.

Context {Ty DTy : Type} `{!Deleter DTy}.
Implicit Types (w : World Ty DTy) (o : SmartPointer DTy) (p h : pointer_type).
Implicit Types (this right second result a b : loc) (d : DTy).

(** C1, as the code has it.  For every SmartPointer [a] holding a
    non-null pointer [h1] and every pointer [h2], [a.assign(h2)] (either
    overload) returns after storing [h2] in [a] and then calling [a]'s
    deleter exactly once, on [h1]: when that call is made [a.get()]
    already returns [h2], and it still does when [assign] has returned. *)
Theorem assign_adopts_then_destroys w a o h2 :
  objects w !! a = Some o ->
  m_pointer o ≠ nullptr ->
  exists w' i,
    assign a h2 w = Ok tt w' /\
    assign_rvalue a h2 w = Ok tt w' /\
    invocations w' = invocations w ++ [i] /\
    inv_arg i = m_pointer o /\
    inv_deleter i = m_deleter o /\
    observed_pointer i a = Some h2 /\
    get a w' = Ok h2 w'.
Proof.
  intros Ha Hnn.
  eexists _, _. change (assign_rvalue a h2 w) with (assign a h2 w).
  rewrite (assign_ok _ _ _ h2 Ha).
  split; [done|]. split; [done|].
  rewrite invocations_after_assign, (to_bool_true _ Hnn).
  split; [done|]. cbn. split; [done|]. split; [done|].
  split.
  - unfold observed_pointer. cbn. by rewrite lookup_insert_eq.
  - rewrite (get_ok _ a (holding o h2)); [done|].
    rewrite objects_after_assign. apply lookup_insert_eq.
Qed.

(** C3.  Destroying a SmartPointer that holds a non-null pointer [h] —
    in particular [SmartPointer(h)] just constructed — calls its deleter
    exactly once, on [h]; destroying one whose pointer is null — in
    particular a default-constructed one, one that has been released,
    or the source of a move — calls no deleter. *)
Theorem destructor_calls_deleter_once_iff_owning :
  (forall w a o,
     objects w !! a = Some o -> m_pointer o ≠ nullptr ->
     exists w' i,
       destructor a w = Ok tt w' /\
       invocations w' = invocations w ++ [i] /\
       inv_arg i = m_pointer o /\ inv_deleter i = m_deleter o /\
       count_on (m_pointer o) (invocations_since (invocations w) (invocations w')) = 1) /\
  (forall w a h,
     objects w !! a = None -> h ≠ nullptr ->
     exists w1 w2 i,
       SmartPointer_ptr a h w = Ok tt w1 /\
       destructor a w1 = Ok tt w2 /\
       invocations w2 = invocations w ++ [i] /\
       inv_arg i = h) /\
  (forall w a o,
     objects w !! a = Some o -> m_pointer o = nullptr ->
     exists w',
       destructor a w = Ok tt w' /\ invocations w' = invocations w) /\
  (forall w a,
     objects w !! a = None ->
     exists w1 w2,
       SmartPointer_default a w = Ok tt w1 /\
       destructor a w1 = Ok tt w2 /\ invocations w2 = invocations w) /\
  (forall w a o,
     objects w !! a = Some o ->
     exists w1 w2,
       release a w = Ok (m_pointer o) w1 /\
       destructor a w1 = Ok tt w2 /\ invocations w2 = invocations w) /\
  (forall w a b o,
     objects w !! a = Some o -> objects w !! b = None ->
     exists w1 w2,
       SmartPointer_move b a w = Ok tt w1 /\
       destructor a w1 = Ok tt w2 /\ invocations w2 = invocations w).
Proof.
  repeat split.
  - intros w a o Ha Hnn. eexists _, _.
    rewrite (destructor_ok _ _ _ Ha), (to_bool_true _ Hnn).
    split; [reflexivity|].
    cbn [invocations set_objects record_invocation].
    split; [reflexivity|].
    rewrite invocations_since_app.
    repeat split; try done.
    unfold count_on. cbn. by rewrite decide_True.
  - intros w a h Ha Hnn. eexists _, _, _.
    unfold SmartPointer_ptr. rewrite (initialise_ok _ _ _ _ Ha).
    split; [done|].
    erewrite destructor_ok; [|cbn; apply lookup_insert_eq].
    cbn. rewrite (to_bool_true _ Hnn). done.
  - intros w a o Ha Hnull. eexists.
    rewrite (destructor_ok _ _ _ Ha), Hnull, to_bool_nullptr. done.
  - intros w a Ha. eexists _, _.
    unfold SmartPointer_default. rewrite (initialise_ok _ _ _ _ Ha).
    split; [done|].
    erewrite destructor_ok; [|cbn; apply lookup_insert_eq]. done.
  - intros w a o Ha. eexists _, _.
    rewrite (release_ok _ _ _ Ha). split; [done|].
    erewrite destructor_ok; [|cbn; apply lookup_insert_eq]. done.
  - intros w a b o Ha Hb. eexists _, _.
    rewrite (SmartPointer_move_ok _ _ _ _ Ha Hb). split; [done|].
    assert (b ≠ a) by congruence.
    erewrite destructor_ok;
      [|cbn; rewrite lookup_insert_ne by done; apply lookup_insert_eq].
    done.
Qed.

(** C4.  For every SmartPointer [a], [a.release()] returns the pointer
    [a] held before the call; afterwards [a.empty()] is true, and no
    deleter has been called. *)
Theorem release_returns_pointer_and_empties w a o :
  objects w !! a = Some o ->
  exists w',
    release a w = Ok (m_pointer o) w' /\
    empty a w' = Ok true w' /\
    get a w' = Ok nullptr w' /\
    invocations w' = invocations w.
Proof.
  intros Ha. eexists. rewrite (release_ok _ _ _ Ha).
  split; [done|].
  erewrite empty_ok, get_ok by (cbn; apply lookup_insert_eq).
  done.
Qed.

(** C5.  For every SmartPointer [a], move-constructing [b] from [a]
    transfers pointer and deleter: afterwards [a.empty()] is true,
    [b.get()] is the pointer and [b.deleter()] the deleter [a] held
    before the move, and no deleter has been called. *)
Theorem move_construction_transfers w a b o :
  objects w !! a = Some o ->
  objects w !! b = None ->
  exists w',
    SmartPointer_move b a w = Ok tt w' /\
    empty a w' = Ok true w' /\
    get b w' = Ok (m_pointer o) w' /\
    deleter b w' = Ok (m_deleter o) w' /\
    invocations w' = invocations w.
Proof.
  intros Ha Hb. assert (b ≠ a) by congruence.
  eexists. rewrite (SmartPointer_move_ok _ _ _ _ Ha Hb).
  split; [done|].
  erewrite empty_ok
    by (cbn; rewrite lookup_insert_ne by done; apply lookup_insert_eq).
  erewrite get_ok, deleter_ok by (cbn; apply lookup_insert_eq).
  done.
Qed.

(** C6.  Each assignment operator — move-assign from another owner,
    assign from an lvalue owner, assign from a raw pointer — is
    [assign] on the destination (after [release] on a source owner and
    before the deleter is moved over): the destination's deleter is
    called exactly once on the pointer the destination held if that was
    not null, the destination ends up holding the source's pointer, and
    a source owner is left empty. *)
Theorem assignment_operators_route_through_assign w this right ot or h :
  objects w !! this = Some ot ->
  objects w !! right = Some or ->
  this ≠ right ->
  (exists w1 w2 w',
     release right w = Ok (m_pointer or) w1 /\
     assign_rvalue this (m_pointer or) w1 = Ok tt w2 /\
     move_assign_deleter this right w2 = Ok tt w' /\
     operator_assign_move this right w = Ok tt w' /\
     operator_assign_lvalue this right w = Ok tt w' /\
     replacement_calls (invocations_since (invocations w) (invocations w')) ot /\
     get this w' = Ok (m_pointer or) w' /\
     empty right w' = Ok true w') /\
  (exists w',
     assign this h w = Ok tt w' /\
     operator_assign_pointer this h w = Ok tt w' /\
     replacement_calls (invocations_since (invocations w) (invocations w')) ot /\
     get this w' = Ok h w').
Proof.
  intros Ht Hr Hne.
  assert (Hcalls : forall w0 p,
    replacement_calls
      (invocations_since (invocations w)
         (invocations w ++
            (if to_bool (m_pointer ot)
             then [ {| inv_deleter := m_deleter ot; inv_arg := m_pointer ot;
                       inv_objects := <[this := holding ot p]> (objects w0) |} ]
             else []))) ot).
  { intros w0 p. rewrite invocations_since_app. unfold replacement_calls.
    destruct (to_bool (m_pointer ot)); [|done]. by eexists. }
  split.
  - pose proof (release_ok _ _ _ Hr) as Hrel.
    set (w1 := set_objects <[right := holding or nullptr]> w) in *.
    assert (Ht1 : objects w1 !! this = Some ot).
    { subst w1. cbn. by rewrite lookup_insert_ne. }
    pose proof (assign_ok _ _ _ (m_pointer or) Ht1) as Hasg.
    set (w2 := after_assign w1 this ot (m_pointer or)) in *.
    assert (Ht2 : objects w2 !! this = Some (holding ot (m_pointer or))).
    { subst w2. rewrite objects_after_assign. apply lookup_insert_eq. }
    assert (Hr2 : objects w2 !! right = Some (holding or nullptr)).
    { subst w2 w1. rewrite objects_after_assign.
      rewrite lookup_insert_ne by done. cbn. apply lookup_insert_eq. }
    pose proof (move_assign_deleter_ok _ _ _ _ _ Ht2 Hr2 Hne) as Hmv.
    eexists w1, w2, _.
    split; [exact Hrel|]. split; [exact Hasg|]. split; [exact Hmv|].
    change (operator_assign_lvalue this right w)
      with (operator_assign_move this right w).
    rewrite (operator_assign_move_steps _ _ _ _ _ _ Hrel Hasg), Hmv.
    split; [done|]. split; [done|].
    split.
    { cbn [invocations set_objects]. subst w2.
      rewrite invocations_after_assign. subst w1. cbn [invocations set_objects].
      apply (Hcalls (set_objects <[right := holding or nullptr]> w)). }
    split.
    + erewrite get_ok; [|cbn; apply lookup_insert_eq]. done.
    + erewrite empty_ok;
        [|cbn; rewrite lookup_insert_ne by done; apply lookup_insert_eq].
      done.
  - eexists. unfold operator_assign_pointer. rewrite (assign_ok _ _ _ h Ht).
    split; [done|]. split; [done|]. split.
    + rewrite invocations_after_assign. apply Hcalls.
    + rewrite (get_ok _ this (holding ot h)); [done|].
      rewrite objects_after_assign. apply lookup_insert_eq.
Qed.

(** C7.  For every pair of SmartPointers [a] and [b] (two objects or
    the same one), after [a.swap(b)] — either overload — [a.get()] is
    the pointer [b] held and [b.get()] the pointer [a] held, and no
    deleter has been called. *)
Theorem swap_exchanges_pointers w a b oa ob :
  objects w !! a = Some oa ->
  objects w !! b = Some ob ->
  exists w',
    swap a b w = Ok tt w' /\
    swap_rvalue a b w = Ok tt w' /\
    get a w' = Ok (m_pointer ob) w' /\
    get b w' = Ok (m_pointer oa) w' /\
    invocations w' = invocations w.
Proof.
  intros Ha Hb. eexists. unfold swap, swap_rvalue.
  rewrite (std_swap_pointers_ok _ _ _ _ _ Ha Hb).
  split; [done|]. split; [done|].
  destruct (decide (a = b)) as [->|Hne].
  - assert (oa = ob) as -> by congruence.
    erewrite get_ok by (cbn; apply lookup_insert_eq). done.
  - erewrite (get_ok _ a)
      by (cbn; rewrite lookup_insert_ne by done; apply lookup_insert_eq).
    erewrite (get_ok _ b) by (cbn; apply lookup_insert_eq).
    done.
Qed.

(** C9.  Self-move-assignment is harmless: for every SmartPointer [a],
    empty or owning, after [a = std::move(a)] the owner holds the
    pointer it held before and no deleter has been called, because
    [release] has nulled the member by the time [assign] puts the
    returned pointer back. *)
Theorem self_move_assignment_harmless w a o :
  objects w !! a = Some o ->
  exists w1 w2 w',
    release a w = Ok (m_pointer o) w1 /\
    get a w1 = Ok nullptr w1 /\
    assign_rvalue a (m_pointer o) w1 = Ok tt w2 /\
    invocations w2 = invocations w /\
    operator_assign_move a a w = Ok tt w' /\
    get a w' = Ok (m_pointer o) w' /\
    invocations w' = invocations w.
Proof.
  intros Ha.
  pose proof (release_ok _ _ _ Ha) as Hrel.
  set (w1 := set_objects <[a := holding o nullptr]> w) in *.
  assert (Ha1 : objects w1 !! a = Some (holding o nullptr)).
  { subst w1. cbn. apply lookup_insert_eq. }
  pose proof (assign_ok _ _ _ (m_pointer o) Ha1) as Hasg.
  set (w2 := after_assign w1 a (holding o nullptr) (m_pointer o)) in *.
  assert (Ha2 : objects w2 !! a = Some (holding (holding o nullptr) (m_pointer o))).
  { subst w2. rewrite objects_after_assign. apply lookup_insert_eq. }
  pose proof (move_assign_deleter_self _ _ _ Ha2) as Hmv.
  assert (Hinv : invocations w2 = invocations w).
  { subst w2. rewrite invocations_after_assign. cbn. by rewrite app_nil_r. }
  eexists w1, w2, _.
  split; [exact Hrel|].
  split; [by rewrite (get_ok _ _ _ Ha1)|].
  split; [exact Hasg|].
  split; [exact Hinv|].
  rewrite (operator_assign_move_steps _ _ _ _ _ _ Hrel Hasg), Hmv.
  split; [done|]. split.
  - erewrite get_ok; [|cbn; apply lookup_insert_eq]. done.
  - exact Hinv.
Qed.

(** C10.  [swap] between two SmartPointers (either overload) exchanges
    only the pointers: each owner's deleter is afterwards the one it
    had before, and every other object is as it was. *)
Theorem swap_leaves_deleters w a b oa ob :
  objects w !! a = Some oa ->
  objects w !! b = Some ob ->
  exists w',
    swap a b w = Ok tt w' /\
    swap_rvalue a b w = Ok tt w' /\
    deleter a w' = Ok (m_deleter oa) w' /\
    deleter b w' = Ok (m_deleter ob) w' /\
    objects w' = <[b := holding ob (m_pointer oa)]>
                   (<[a := holding oa (m_pointer ob)]> (objects w)) /\
    heap w' = heap w.
Proof.
  intros Ha Hb. eexists. unfold swap, swap_rvalue.
  rewrite (std_swap_pointers_ok _ _ _ _ _ Ha Hb).
  split; [done|]. split; [done|].
  destruct (decide (a = b)) as [->|Hne].
  - assert (oa = ob) as -> by congruence.
    erewrite deleter_ok by (cbn; apply lookup_insert_eq). done.
  - erewrite (deleter_ok _ a)
      by (cbn; rewrite lookup_insert_ne by done; apply lookup_insert_eq).
    erewrite (deleter_ok _ b) by (cbn; apply lookup_insert_eq).
    done.
Qed.

(** C2 on the code.  The conversion to [SmartPointer<P>] copies the
    pointer and leaves the source as it was: from an owner [a] of a
    non-null pointer it builds a second owner [b] of the same pointer,
    [a] is not empty afterwards, and destroying the two owners calls a
    deleter on that pointer twice. *)
Theorem conversion_leaves_source_owning w a b o :
  objects w !! a = Some o ->
  objects w !! b = None ->
  m_pointer o ≠ nullptr ->
  exists w1 w2 w3 i1 i2,
    operator_SmartPointer a b w = Ok tt w1 /\
    empty a w1 = Ok false w1 /\
    get a w1 = Ok (m_pointer o) w1 /\
    get b w1 = Ok (m_pointer o) w1 /\
    destructor b w1 = Ok tt w2 /\
    destructor a w2 = Ok tt w3 /\
    invocations w3 = invocations w ++ [i1; i2] /\
    inv_arg i1 = m_pointer o /\ inv_arg i2 = m_pointer o /\
    count_on (m_pointer o) (invocations_since (invocations w) (invocations w3)) = 2.
Proof.
  intros Ha Hb Hnn. assert (b ≠ a) by congruence.
  eexists _, _, _, _, _.
  rewrite (operator_SmartPointer_ok _ _ _ _ Ha Hb).
  split; [reflexivity|].
  erewrite empty_ok by (cbn; rewrite lookup_insert_ne by done; exact Ha).
  erewrite (get_ok _ a) by (cbn; rewrite lookup_insert_ne by done; exact Ha).
  erewrite (get_ok _ b) by (cbn; apply lookup_insert_eq).
  split; [by rewrite (proj2 (N.eqb_neq _ _) Hnn)|].
  split; [reflexivity|]. split; [reflexivity|].
  erewrite destructor_ok by (cbn; apply lookup_insert_eq).
  cbn [m_pointer m_deleter]. rewrite (to_bool_true _ Hnn).
  split; [reflexivity|].
  erewrite destructor_ok
    by (cbn; rewrite lookup_delete_ne by done;
        rewrite lookup_insert_ne by done; exact Ha).
  rewrite (to_bool_true _ Hnn).
  split; [reflexivity|].
  cbn [invocations set_objects record_invocation].
  rewrite <- app_assoc. cbn [app].
  split; [reflexivity|].
  rewrite invocations_since_app.
  repeat split. unfold count_on. cbn. by rewrite !decide_True.
Qed.

End Properties.

Section Factory.

Context {Ty Args DTy : Type} `{!Deleter DTy}.
Variable operator_new : gmap pointer_type Ty -> option pointer_type.
Variable value_type : Args -> exception + Ty.
Implicit Types (w : World Ty DTy) (p : pointer_type) (result : loc).

(** C8.  For all constructor arguments [args], [create(args...)]
    returns an owner of the pointer obtained from [new], whose
    referenced value is the one the constructor built from exactly
    those [args], with a default-constructed deleter; if [new] cannot
    obtain storage, [std::bad_alloc] leaves [create] with the world as
    it was — no owner has been constructed. *)
Theorem create_constructs_or_propagates w result (args : Args) :
  objects w !! result = None ->
  (forall p v,
     operator_new (heap w) = Some p ->
     value_type args = inr v ->
     exists w',
       create operator_new value_type result args w = Ok tt w' /\
       get result w' = Ok p w' /\
       operator_star result w' = Ok v w' /\
       deleter result w' = Ok default_init w' /\
       invocations w' = invocations w) /\
  (operator_new (heap w) = None ->
     create operator_new value_type result args w = Throw bad_alloc w /\
     objects w !! result = None).
Proof.
  intros Hfresh. split.
  - intros p v Hnew Hv. eexists.
    unfold create, new_value_type, bind at 1. rewrite Hnew, Hv.
    unfold SmartPointer_ptr. rewrite initialise_ok by done.
    split; [done|].
    erewrite get_ok, deleter_ok by (cbn; apply lookup_insert_eq).
    repeat split.
    unfold operator_star.
    erewrite bind_ok; [|apply load_pointer_ok; cbn; apply lookup_insert_eq].
    cbn. by rewrite lookup_insert_eq.
  - intros Hnew. split; [|done].
    unfold create, new_value_type, bind. by rewrite Hnew.
Qed.

End Factory.

(** ** Concrete runs *)

(** C1, as the specification words it, fails: the owner at location 0
    holds pointer 1, and when [assign(2)] calls the deleter on 1 the
    owner already shows 2. *)
Lemma destroy_before_adopt_fails : ~ destroy_before_adopt one_owner 0 1 2.
Proof.
  intros (w' & i & Hrun & Hinv & _ & Hobs).
  vm_compute in Hrun. injection Hrun as <-.
  cbn in Hinv. injection Hinv as <-.
  apply Hobs. vm_compute. reflexivity.
Qed.

Lemma assign_adopts_then_destroys_witness :
  exists w' i,
    assign 0 2 one_owner = Ok tt w' /\
    assign_rvalue 0 2 one_owner = Ok tt w' /\
    invocations w' = invocations one_owner ++ [i] /\
    inv_arg i = 1%N /\
    inv_deleter i = 7 /\
    observed_pointer i 0 = Some 2%N /\
    get 0 w' = Ok 2%N w'.
Proof.
  apply (assign_adopts_then_destroys one_owner 0
           {| m_pointer := 1; m_deleter := 7 |} 2).
  - reflexivity.
  - discriminate.
Defined.

Lemma conversion_leaves_source_owning_witness :
  exists w1 w2 w3 i1 i2,
    operator_SmartPointer 0 1 one_owner = Ok tt w1 /\
    empty 0 w1 = Ok false w1 /\
    get 0 w1 = Ok 1%N w1 /\
    get 1 w1 = Ok 1%N w1 /\
    destructor 1 w1 = Ok tt w2 /\
    destructor 0 w2 = Ok tt w3 /\
    invocations w3 = invocations one_owner ++ [i1; i2] /\
    inv_arg i1 = 1%N /\ inv_arg i2 = 1%N /\
    count_on 1 (invocations_since (invocations one_owner) (invocations w3)) = 2.
Proof.
  apply (conversion_leaves_source_owning one_owner 0 1
           {| m_pointer := 1; m_deleter := 7 |});
    [reflexivity | reflexivity | discriminate].
Defined.

Lemma destructor_calls_deleter_once_iff_owning_witness :
  (exists w' i,
     destructor 0 one_owner = Ok tt w' /\
     invocations w' = invocations one_owner ++ [i] /\
     inv_arg i = 1%N /\ inv_deleter i = 7 /\
     count_on 1 (invocations_since (invocations one_owner) (invocations w')) = 1) /\
  (exists w1 w2 i,
     SmartPointer_ptr 0 1 (world_of ∅) = Ok tt w1 /\
     destructor 0 w1 = Ok tt w2 /\
     invocations w2 = invocations (world_of ∅) ++ [i] /\
     inv_arg i = 1%N) /\
  (exists w',
     destructor 0 empty_owner = Ok tt w' /\
     invocations w' = invocations empty_owner) /\
  (exists w1 w2,
     SmartPointer_default 0 (world_of ∅) = Ok tt w1 /\
     destructor 0 w1 = Ok tt w2 /\
     invocations w2 = invocations (world_of ∅)) /\
  (exists w1 w2,
     release 0 one_owner = Ok 1%N w1 /\
     destructor 0 w1 = Ok tt w2 /\
     invocations w2 = invocations one_owner) /\
  (exists w1 w2,
     SmartPointer_move 1 0 one_owner = Ok tt w1 /\
     destructor 0 w1 = Ok tt w2 /\
     invocations w2 = invocations one_owner).
Proof.
  destruct (@destructor_calls_deleter_once_iff_owning nat nat _)
    as (Howning & Hctor & Hnull & Hdefault & Hreleased & Hmoved).
  split; [|split; [|split; [|split; [|split]]]].
  - apply (Howning one_owner 0 {| m_pointer := 1; m_deleter := 7 |});
      [reflexivity | discriminate].
  - apply (Hctor (world_of ∅) 0 1%N); [reflexivity | discriminate].
  - apply (Hnull empty_owner 0 {| m_pointer := nullptr; m_deleter := 7 |});
      reflexivity.
  - apply (Hdefault (world_of ∅) 0); reflexivity.
  - apply (Hreleased one_owner 0 {| m_pointer := 1; m_deleter := 7 |});
      reflexivity.
  - apply (Hmoved one_owner 0 1 {| m_pointer := 1; m_deleter := 7 |});
      reflexivity.
Defined.

Lemma release_returns_pointer_and_empties_witness :
  exists w',
    release 0 one_owner = Ok 1%N w' /\
    empty 0 w' = Ok true w' /\
    get 0 w' = Ok nullptr w' /\
    invocations w' = invocations one_owner.
Proof.
  apply (release_returns_pointer_and_empties one_owner 0
           {| m_pointer := 1; m_deleter := 7 |}).
  reflexivity.
Defined.

Lemma move_construction_transfers_witness :
  exists w',
    SmartPointer_move 1 0 one_owner = Ok tt w' /\
    empty 0 w' = Ok true w' /\
    get 1 w' = Ok 1%N w' /\
    deleter 1 w' = Ok 7 w' /\
    invocations w' = invocations one_owner.
Proof.
  apply (move_construction_transfers one_owner 0 1
           {| m_pointer := 1; m_deleter := 7 |});
    reflexivity.
Defined.

Lemma assignment_operators_route_through_assign_witness :
  (exists w1 w2 w',
     release 1 two_owners = Ok 2%N w1 /\
     assign_rvalue 0 2 w1 = Ok tt w2 /\
     move_assign_deleter 0 1 w2 = Ok tt w' /\
     operator_assign_move 0 1 two_owners = Ok tt w' /\
     operator_assign_lvalue 0 1 two_owners = Ok tt w' /\
     replacement_calls
       (invocations_since (invocations two_owners) (invocations w'))
       {| m_pointer := 1; m_deleter := 7 |} /\
     get 0 w' = Ok 2%N w' /\
     empty 1 w' = Ok true w') /\
  (exists w',
     assign 0 5 two_owners = Ok tt w' /\
     operator_assign_pointer 0 5 two_owners = Ok tt w' /\
     replacement_calls
       (invocations_since (invocations two_owners) (invocations w'))
       {| m_pointer := 1; m_deleter := 7 |} /\
     get 0 w' = Ok 5%N w').
Proof.
  apply (assignment_operators_route_through_assign two_owners 0 1
           {| m_pointer := 1; m_deleter := 7 |}
           {| m_pointer := 2; m_deleter := 9 |} 5);
    [reflexivity | reflexivity | lia].
Defined.

Lemma swap_exchanges_pointers_witness :
  exists w',
    swap 0 1 two_owners = Ok tt w' /\
    swap_rvalue 0 1 two_owners = Ok tt w' /\
    get 0 w' = Ok 2%N w' /\
    get 1 w' = Ok 1%N w' /\
    invocations w' = invocations two_owners.
Proof.
  apply (swap_exchanges_pointers two_owners 0 1
           {| m_pointer := 1; m_deleter := 7 |}
           {| m_pointer := 2; m_deleter := 9 |});
    reflexivity.
Defined.

Lemma self_move_assignment_harmless_witness :
  exists w1 w2 w',
    release 0 one_owner = Ok 1%N w1 /\
    get 0 w1 = Ok nullptr w1 /\
    assign_rvalue 0 1 w1 = Ok tt w2 /\
    invocations w2 = invocations one_owner /\
    operator_assign_move 0 0 one_owner = Ok tt w' /\
    get 0 w' = Ok 1%N w' /\
    invocations w' = invocations one_owner.
Proof.
  apply (self_move_assignment_harmless one_owner 0
           {| m_pointer := 1; m_deleter := 7 |}).
  reflexivity.
Defined.

Lemma swap_leaves_deleters_witness :
  exists w',
    swap 0 1 two_owners = Ok tt w' /\
    swap_rvalue 0 1 two_owners = Ok tt w' /\
    deleter 0 w' = Ok 7 w' /\
    deleter 1 w' = Ok 9 w' /\
    objects w' = <[1 := {| m_pointer := 1; m_deleter := 9 |}]>
                   (<[0 := {| m_pointer := 2; m_deleter := 7 |}]>
                      (objects two_owners)) /\
    heap w' = heap two_owners.
Proof.
  apply (swap_leaves_deleters two_owners 0 1
           {| m_pointer := 1; m_deleter := 7 |}
           {| m_pointer := 2; m_deleter := 9 |});
    reflexivity.
Defined.

Lemma create_constructs_or_propagates_witness :
  (exists w',
     create (bounded_store 1) boxed_nat 0 5 no_objects = Ok tt w' /\
     get 0 w' = Ok 1%N w' /\
     operator_star 0 w' = Ok 5 w' /\
     deleter 0 w' = Ok tt w' /\
     invocations w' = invocations no_objects) /\
  (create (bounded_store 0) boxed_nat 0 5 no_objects = Throw bad_alloc no_objects /\
   objects no_objects !! 0 = None).
Proof.
  split.
  - refine (proj1 (create_constructs_or_propagates (bounded_store 1) boxed_nat
                     no_objects 0 5 _) 1%N 5 _ _);
      reflexivity.
  - refine (proj2 (create_constructs_or_propagates (bounded_store 0) boxed_nat
                     no_objects 0 5 _) _);
      reflexivity.
Defined.

(** The scenarios of one owner's life, run on the code. *)

(** [auto p = create(5); *p; auto q = std::move(p); p.empty(); *q;]
    then [q] and [p] leave scope: both dereferences read 5, [p] is empty
    after the move, and the one deleter call is on the created pointer. *)
Example create_move_destroy :
  exists w',
    (create (bounded_store 1) boxed_nat 0 5 ;;;
     before <- operator_star 0 ;;
     SmartPointer_move 1 0 ;;;
     moved <- empty 0 ;;
     after <- operator_star 1 ;;
     destructor 1 ;;;
     destructor 0 ;;;
     ret (before, moved, after)) no_objects = Ok (5, true, 5) w' /\
    inv_arg <$> invocations w' = [1%N] /\
    objects w' = ∅.
Proof. eexists. repeat split; vm_compute; reflexivity. Qed.

(** [a.assign(3); a.assign(4);] on the owner of pointer 1, which is
    then destroyed: the deleter is called on 1, on 3 and at last on 4. *)
Example assign_twice_then_destroy :
  exists w',
    (assign 0 3 ;;; assign 0 4 ;;; destructor 0) one_owner = Ok tt w' /\
    inv_arg <$> invocations w' = [1%N; 3%N; 4%N].
Proof. eexists. split; vm_compute; reflexivity. Qed.

(** ** Further properties of the members *)

Section Further.

Context {Ty DTy : Type} `{!Deleter DTy}.
Implicit Types (w : World Ty DTy) (o : SmartPointer DTy) (p h : pointer_type).
Implicit Types (this right second result a b c : loc) (d : DTy).

Lemma set_objects_id w (f : gmap loc (SmartPointer DTy) -> gmap loc (SmartPointer DTy)) :
  f (objects w) = objects w -> set_objects f w = w.
Proof. destruct w. unfold set_objects. cbn. by intros ->. Qed.

Lemma holding_same o : holding o (m_pointer o) = o.
Proof. by destruct o. Qed.

Lemma swap_pointer_ok w this o p :
  objects w !! this = Some o ->
  swap_pointer this p w = Ok (m_pointer o) (set_objects <[this := holding o p]> w).
Proof.
  intros H. unfold swap_pointer.
  rewrite (bind_ok _ _ _ _ _ (load_pointer_ok _ _ _ H)).
  by rewrite (bind_ok _ _ _ _ _ (store_pointer_ok _ _ _ p H)).
Qed.

Lemma operator_bool_ok w this o :
  objects w !! this = Some o ->
  operator_bool this w = Ok (negb (N.eqb (m_pointer o) nullptr)) w.
Proof.
  intros H. unfold operator_bool.
  by rewrite (bind_ok _ _ _ _ _ (load_pointer_ok _ _ _ H)).
Qed.

(** X1.  The observers agree and observe only: on every live owner
    [get], [operator->] and the conversion to the raw pointer return
    the same pointer, [empty] is true exactly when that pointer is
    null, [operator bool] is the negation of [empty], and each of them
    leaves the world as it was. *)
Theorem observers_agree w a o :
  objects w !! a = Some o ->
  get a w = Ok (m_pointer o) w /\
  operator_arrow a w = Ok (m_pointer o) w /\
  operator_pointer_type a w = Ok (m_pointer o) w /\
  deleter a w = Ok (m_deleter o) w /\
  exists e t,
    empty a w = Ok e w /\
    operator_bool a w = Ok t w /\
    t = negb e /\
    (e = true <-> m_pointer o = nullptr).
Proof.
  intros Ha.
  split; [by apply get_ok|].
  split; [by apply load_pointer_ok|].
  split; [by apply load_pointer_ok|].
  split; [by apply deleter_ok|].
  eexists _, _.
  split; [by apply empty_ok|].
  split; [by apply operator_bool_ok|].
  split; [done|]. apply N.eqb_eq.
Qed.

(** X2.  Construction from a raw pointer takes ownership and destroys
    nothing: built in storage holding no live object, [SmartPointer(h,
    d)] holds [h] with deleter [d], [SmartPointer(h)] holds [h] with a
    default-constructed deleter and [SmartPointer()] is empty; no
    deleter is called, and the heap and every other object are as they
    were. *)
Theorem construction_adopts_without_destroying w a h d :
  objects w !! a = None ->
  (exists w',
     SmartPointer_ptr_deleter a h d w = Ok tt w' /\
     get a w' = Ok h w' /\ deleter a w' = Ok d w' /\
     invocations w' = invocations w /\ heap w' = heap w /\
     forall c, c ≠ a -> objects w' !! c = objects w !! c) /\
  (exists w',
     SmartPointer_ptr a h w = Ok tt w' /\
     get a w' = Ok h w' /\ deleter a w' = Ok default_init w' /\
     invocations w' = invocations w /\ heap w' = heap w /\
     forall c, c ≠ a -> objects w' !! c = objects w !! c) /\
  (exists w',
     SmartPointer_default a w = Ok tt w' /\
     empty a w' = Ok true w' /\ deleter a w' = Ok default_init w' /\
     invocations w' = invocations w /\ heap w' = heap w /\
     forall c, c ≠ a -> objects w' !! c = objects w !! c).
Proof.
  intros Ha.
  unfold SmartPointer_ptr_deleter, SmartPointer_ptr, SmartPointer_default.
  repeat split; eexists; rewrite (initialise_ok _ _ _ _ Ha);
    (split; [reflexivity|]);
    try erewrite get_ok by (cbn; apply lookup_insert_eq);
    try erewrite empty_ok by (cbn; apply lookup_insert_eq);
    erewrite deleter_ok by (cbn; apply lookup_insert_eq);
    repeat split; intros c Hc; cbn; by rewrite lookup_insert_ne.
Qed.

(** X3.  [a.swap(p)] with a raw pointer variable hands [a]'s pointer
    to the variable and [p] to [a], keeps [a]'s deleter and calls none;
    swapping the variable back in restores the world exactly. *)
Theorem swap_with_raw_pointer w a o p :
  objects w !! a = Some o ->
  exists w1,
    swap_pointer a p w = Ok (m_pointer o) w1 /\
    get a w1 = Ok p w1 /\
    deleter a w1 = Ok (m_deleter o) w1 /\
    invocations w1 = invocations w /\
    swap_pointer a (m_pointer o) w1 = Ok p w.
Proof.
  intros Ha. eexists. rewrite (swap_pointer_ok _ _ _ p Ha).
  split; [reflexivity|].
  erewrite get_ok, deleter_ok by (cbn; apply lookup_insert_eq).
  split; [done|]. split; [done|]. split; [done|].
  erewrite swap_pointer_ok by (cbn; apply lookup_insert_eq).
  cbn [m_pointer holding]. f_equal.
  destruct w as [m hp l]. unfold set_objects, holding. cbn in *.
  rewrite insert_insert_eq. f_equal. apply insert_id. by destruct o.
Qed.

(** X4.  Swapping two owners twice restores the world exactly: pointers,
    deleters, heap and the record of deleter calls. *)
Theorem swap_twice_restores w a b oa ob :
  objects w !! a = Some oa ->
  objects w !! b = Some ob ->
  exists w1, swap a b w = Ok tt w1 /\ swap a b w1 = Ok tt w.
Proof.
  intros Ha Hb. eexists. unfold swap.
  rewrite (std_swap_pointers_ok _ _ _ _ _ Ha Hb).
  split; [reflexivity|].
  destruct (decide (a = b)) as [->|Hne].
  - assert (oa = ob) as -> by congruence.
    erewrite std_swap_pointers_ok by (cbn; apply lookup_insert_eq).
    f_equal. destruct w as [m hp l]. unfold set_objects, holding. cbn in *.
    f_equal. rewrite !insert_insert_eq. apply insert_id. by destruct ob.
  - erewrite std_swap_pointers_ok; last first.
    { cbn. apply lookup_insert_eq. }
    { cbn. rewrite lookup_insert_ne by done. apply lookup_insert_eq. }
    f_equal. destruct w as [m hp l]. unfold set_objects, holding. cbn in *.
    f_equal. apply map_eq. intros i.
    destruct (decide (i = b)) as [->|]; [|destruct (decide (i = a)) as [->|]].
    + rewrite lookup_insert_eq. by destruct ob.
    + rewrite lookup_insert_ne, lookup_insert_eq by done. by destruct oa.
    + by rewrite !lookup_insert_ne.
Qed.

(** X5.  [swap] is symmetric, and swapping an owner with itself does
    nothing: [a.swap(b)] and [b.swap(a)] end in the same world, and
    [a.swap(a)] in the world it started from. *)
Theorem swap_symmetric w a b oa ob :
  objects w !! a = Some oa ->
  objects w !! b = Some ob ->
  (exists w', swap a b w = Ok tt w' /\ swap b a w = Ok tt w') /\
  swap a a w = Ok tt w.
Proof.
  intros Ha Hb. split.
  - eexists. unfold swap.
    rewrite (std_swap_pointers_ok _ _ _ _ _ Ha Hb).
    rewrite (std_swap_pointers_ok _ _ _ _ _ Hb Ha).
    split; [reflexivity|]. f_equal.
    destruct w as [m hp l]. unfold set_objects. cbn in *. f_equal.
    destruct (decide (a = b)) as [->|Hne].
    + by assert (oa = ob) as -> by congruence.
    + by apply insert_insert_ne.
  - unfold swap. rewrite (std_swap_pointers_ok _ _ _ _ _ Ha Ha).
    f_equal. apply set_objects_id.
    rewrite insert_insert_eq, holding_same. by apply insert_id.
Qed.

Lemma to_bool_false p : p = nullptr -> to_bool p = false.
Proof. by intros ->. Qed.

Lemma to_bool_spec p : to_bool p = true <-> p ≠ nullptr.
Proof.
  unfold to_bool. rewrite negb_true_iff. apply N.eqb_neq.
Qed.

(** X6.  Releasing twice: the first [release] returns the pointer and
    empties the owner, the second returns [nullptr] and changes
    nothing; [release] on an empty owner leaves the world as it was. *)
Theorem release_twice w a o :
  objects w !! a = Some o ->
  exists w1,
    release a w = Ok (m_pointer o) w1 /\
    release a w1 = Ok nullptr w1 /\
    (m_pointer o = nullptr -> w1 = w).
Proof.
  intros Ha. eexists. rewrite (release_ok _ _ _ Ha).
  split; [reflexivity|]. split.
  - erewrite release_ok by (cbn; apply lookup_insert_eq).
    cbn [m_pointer holding]. f_equal. apply set_objects_id.
    cbn. by rewrite insert_insert_eq.
  - intros Hnull. apply set_objects_id.
    rewrite <- Hnull, holding_same. by apply insert_id.
Qed.

(** X7.  [assign] on an empty owner adopts the pointer and calls no
    deleter; the owner keeps its deleter. *)
Theorem assign_on_empty_adopts_silently w a o h :
  objects w !! a = Some o ->
  m_pointer o = nullptr ->
  exists w',
    assign a h w = Ok tt w' /\
    get a w' = Ok h w' /\
    deleter a w' = Ok (m_deleter o) w' /\
    invocations w' = invocations w.
Proof.
  intros Ha Hnull. eexists. rewrite (assign_ok _ _ _ h Ha).
  split; [reflexivity|].
  rewrite (get_ok _ a (holding o h)), (deleter_ok _ a (holding o h))
    by (rewrite objects_after_assign; apply lookup_insert_eq).
  split; [done|]. split; [done|].
  rewrite invocations_after_assign, (to_bool_false _ Hnull).
  apply app_nil_r.
Qed.

(** X8.  [assign(nullptr)] resets the owner: the deleter is called once
    on the old pointer if that was not null, the owner is empty
    afterwards, and its destruction then calls nothing. *)
Theorem assign_nullptr_resets w a o :
  objects w !! a = Some o ->
  exists w1 w2,
    assign a nullptr w = Ok tt w1 /\
    empty a w1 = Ok true w1 /\
    replacement_calls (invocations_since (invocations w) (invocations w1)) o /\
    destructor a w1 = Ok tt w2 /\
    invocations w2 = invocations w1.
Proof.
  intros Ha. eexists _, _. rewrite (assign_ok _ _ _ nullptr Ha).
  split; [reflexivity|].
  assert (Ha1 : objects (after_assign w a o nullptr) !! a = Some (holding o nullptr)).
  { rewrite objects_after_assign. apply lookup_insert_eq. }
  rewrite (empty_ok _ _ _ Ha1). split; [done|].
  split.
  { rewrite invocations_after_assign, invocations_since_app.
    unfold replacement_calls. destruct (to_bool (m_pointer o)); [|done].
    by eexists. }
  rewrite (destructor_ok _ _ _ Ha1). done.
Qed.


(** X10.  [assign] has no guard for the pointer the owner already
    holds: [a.assign(a.get())], or [a = a.get()], on an owner of a
    non-null [h] calls the deleter on [h] and leaves [a] holding [h];
    destroying [a] then calls the deleter on [h] a second time. *)
Theorem assign_own_pointer_destroys_it w a o :
  objects w !! a = Some o ->
  m_pointer o ≠ nullptr ->
  exists w1 w2 i1 i2,
    assign a (m_pointer o) w = Ok tt w1 /\
    operator_assign_pointer a (m_pointer o) w = Ok tt w1 /\
    get a w1 = Ok (m_pointer o) w1 /\
    invocations w1 = invocations w ++ [i1] /\
    inv_arg i1 = m_pointer o /\
    destructor a w1 = Ok tt w2 /\
    invocations w2 = invocations w ++ [i1; i2] /\
    inv_arg i2 = m_pointer o.
Proof.
  intros Ha Hnn. eexists _, _, _, _.
  unfold operator_assign_pointer. rewrite (assign_ok _ _ _ (m_pointer o) Ha).
  split; [reflexivity|]. split; [reflexivity|].
  assert (Ha1 : objects (after_assign w a o (m_pointer o)) !! a = Some o).
  { rewrite objects_after_assign, holding_same. apply lookup_insert_eq. }
  rewrite (get_ok _ _ _ Ha1). split; [done|].
  rewrite invocations_after_assign, (to_bool_true _ Hnn).
  split; [reflexivity|]. split; [reflexivity|].
  rewrite (destructor_ok _ _ _ Ha1), (to_bool_true _ Hnn).
  split; [reflexivity|].
  cbn [invocations set_objects record_invocation].
  rewrite invocations_after_assign, (to_bool_true _ Hnn), <- app_assoc.
  split; reflexivity.
Qed.

(** The world an assignment operator reaches from two different
    objects: [release], [assign], then the move of the deleter. *)
Lemma operator_assign_move_ok w this right ot or :
  objects w !! this = Some ot ->
  objects w !! right = Some or ->
  this ≠ right ->
  operator_assign_move this right w =
    Ok tt
      (set_objects
         (fun m => <[this := deleting (holding ot (m_pointer or)) (m_deleter or)]>
                     (<[right := deleting (holding or nullptr)
                                   (moved_from (m_deleter or))]> m))
         (after_assign (set_objects <[right := holding or nullptr]> w)
            this ot (m_pointer or))).
Proof.
  intros Ht Hr Hne.
  pose proof (release_ok _ _ _ Hr) as Hrel.
  assert (Ht1 : objects (set_objects <[right := holding or nullptr]> w) !! this
                = Some ot).
  { cbn. by rewrite lookup_insert_ne. }
  pose proof (assign_ok _ _ _ (m_pointer or) Ht1) as Hasg.
  rewrite (operator_assign_move_steps _ _ _ _ _ _ Hrel Hasg).
  rewrite (move_assign_deleter_ok _ this right
             (holding ot (m_pointer or)) (holding or nullptr));
    [reflexivity| | |done].
  - rewrite objects_after_assign. apply lookup_insert_eq.
  - rewrite objects_after_assign, lookup_insert_ne by done.
    cbn. apply lookup_insert_eq.
Qed.

Lemma operator_assign_move_self w this o :
  objects w !! this = Some o ->
  operator_assign_move this this w =
    Ok tt
      (set_objects
         <[this := deleting (holding (holding o nullptr) (m_pointer o))
                     (self_moved (m_deleter o))]>
         (after_assign (set_objects <[this := holding o nullptr]> w)
            this (holding o nullptr) (m_pointer o))).
Proof.
  intros Ht.
  pose proof (release_ok _ _ _ Ht) as Hrel.
  assert (Ht1 : objects (set_objects <[this := holding o nullptr]> w) !! this
                = Some (holding o nullptr)).
  { cbn. apply lookup_insert_eq. }
  pose proof (assign_ok _ _ _ (m_pointer o) Ht1) as Hasg.
  rewrite (operator_assign_move_steps _ _ _ _ _ _ Hrel Hasg).
  rewrite (move_assign_deleter_self _ this
             (holding (holding o nullptr) (m_pointer o)));
    [reflexivity|].
  rewrite objects_after_assign. apply lookup_insert_eq.
Qed.

(** X11.  A pointer handed on by move construction is destroyed once:
    after [b] is move-constructed from [a] and [c] from [b], destroying
    all three owners calls [a]'s original deleter once on [a]'s
    original pointer if that was not null, and calls nothing else. *)
Theorem moved_pointer_destroyed_once w a b c o :
  objects w !! a = Some o ->
  objects w !! b = None ->
  objects w !! c = None ->
  b ≠ c ->
  exists w1 w2 w3 w4 w5,
    SmartPointer_move b a w = Ok tt w1 /\
    SmartPointer_move c b w1 = Ok tt w2 /\
    destructor a w2 = Ok tt w3 /\
    destructor b w3 = Ok tt w4 /\
    destructor c w4 = Ok tt w5 /\
    replacement_calls (invocations_since (invocations w) (invocations w5)) o.
Proof.
  intros Ha Hb Hc Hbc.
  assert (b ≠ a) by congruence. assert (c ≠ a) by congruence.
  eexists _, _, _, _, _.
  rewrite (SmartPointer_move_ok _ _ _ _ Ha Hb). split; [reflexivity|].
  erewrite SmartPointer_move_ok; last first.
  { cbn. by rewrite !lookup_insert_ne. }
  { cbn. apply lookup_insert_eq. }
  split; [reflexivity|].
  erewrite destructor_ok; last first.
  { cbn. rewrite !lookup_insert_ne by done. apply lookup_insert_eq. }
  split; [reflexivity|].
  erewrite destructor_ok; last first.
  { cbn. rewrite lookup_delete_ne, lookup_insert_ne by done.
    apply lookup_insert_eq. }
  split; [reflexivity|].
  erewrite destructor_ok; last first.
  { cbn. rewrite !lookup_delete_ne by done. apply lookup_insert_eq. }
  split; [reflexivity|].
  cbn [m_pointer moved_out]. rewrite !to_bool_nullptr.
  unfold replacement_calls.
  destruct (to_bool (m_pointer o)); cbn [invocations set_objects record_invocation].
  - rewrite invocations_since_app. by eexists.
  - unfold invocations_since. by rewrite drop_all.
Qed.

(** X12.  Move assignment carries the deleter with the pointer: after
    [dst = std::move(src)] between two different owners, [dst] has
    the deleter [src] had and [src] is left with a moved-from one;
    destroying [dst] then calls [src]'s original deleter on [src]'s
    original pointer (once, if not null), and destroying [src] calls
    nothing. *)
Theorem move_assignment_carries_deleter w this right ot or :
  objects w !! this = Some ot ->
  objects w !! right = Some or ->
  this ≠ right ->
  exists w1 w2 w3,
    operator_assign_move this right w = Ok tt w1 /\
    deleter this w1 = Ok (m_deleter or) w1 /\
    deleter right w1 = Ok (moved_from (m_deleter or)) w1 /\
    destructor this w1 = Ok tt w2 /\
    replacement_calls (invocations_since (invocations w1) (invocations w2)) or /\
    destructor right w2 = Ok tt w3 /\
    invocations w3 = invocations w2.
Proof.
  intros Ht Hr Hne. eexists _, _, _.
  rewrite (operator_assign_move_ok _ _ _ _ _ Ht Hr Hne).
  split; [reflexivity|].
  erewrite (deleter_ok _ this) by (cbn; apply lookup_insert_eq).
  erewrite (deleter_ok _ right)
    by (cbn; rewrite lookup_insert_ne by done; apply lookup_insert_eq).
  split; [reflexivity|]. split; [reflexivity|].
  erewrite destructor_ok by (cbn; apply lookup_insert_eq).
  split; [reflexivity|].
  cbn [m_pointer m_deleter deleting holding].
  split.
  { unfold replacement_calls. destruct (to_bool (m_pointer or));
      cbn [invocations set_objects record_invocation].
    - rewrite invocations_since_app. by eexists.
    - unfold invocations_since. by rewrite drop_all. }
  erewrite destructor_ok; last first.
  { cbn [objects set_objects]. rewrite lookup_delete_ne by done.
    assert (Hm : forall (m : gmap loc (SmartPointer DTy)) x y,
      (<[this := x]> (<[right := y]> m)) !! right = Some y).
    { intros. rewrite lookup_insert_ne by done. apply lookup_insert_eq. }
    destruct (to_bool (m_pointer or)); cbn; apply Hm. }
  cbn [m_pointer deleting holding]. rewrite to_bool_nullptr.
  split; reflexivity.
Qed.

(** X13.  The conversion to [SmartPointer<P>] calls no deleter and
    does not carry the source's deleter: the new owner holds the
    source's pointer with a default-constructed deleter and the source
    is exactly as before; converting an empty owner gives a second empty
    owner, and destroying both calls nothing. *)
Theorem conversion_default_deleter w a b o :
  objects w !! a = Some o ->
  objects w !! b = None ->
  exists w1,
    operator_SmartPointer a b w = Ok tt w1 /\
    get b w1 = Ok (m_pointer o) w1 /\
    deleter b w1 = Ok default_init w1 /\
    objects w1 !! a = Some o /\
    invocations w1 = invocations w /\
    (m_pointer o = nullptr ->
     exists w2 w3,
       destructor b w1 = Ok tt w2 /\
       destructor a w2 = Ok tt w3 /\
       invocations w3 = invocations w).
Proof.
  intros Ha Hb. assert (b ≠ a) by congruence.
  eexists. rewrite (operator_SmartPointer_ok _ _ _ _ Ha Hb).
  split; [reflexivity|].
  erewrite get_ok, deleter_ok by (cbn; apply lookup_insert_eq).
  split; [reflexivity|]. split; [reflexivity|].
  split; [cbn; by rewrite lookup_insert_ne|].
  split; [reflexivity|].
  intros Hnull. eexists _, _.
  erewrite destructor_ok by (cbn; apply lookup_insert_eq).
  cbn [m_pointer]. rewrite Hnull, to_bool_nullptr.
  split; [reflexivity|].
  erewrite destructor_ok; last first.
  { cbn. rewrite lookup_delete_ne, lookup_insert_ne by done. exact Ha. }
  rewrite Hnull, to_bool_nullptr. split; reflexivity.
Qed.


(** X15.  No member passes [nullptr] to a deleter: every deleter call
    made by [assign], by the destructor or by an assignment from another
    or the same owner is on a pointer that is not null. *)
Theorem deleter_never_called_on_nullptr w a right o or h :
  objects w !! a = Some o ->
  objects w !! right = Some or ->
  (exists w',
     assign a h w = Ok tt w' /\
     Forall (fun i => inv_arg i ≠ nullptr)
       (invocations_since (invocations w) (invocations w'))) /\
  (exists w',
     destructor a w = Ok tt w' /\
     Forall (fun i => inv_arg i ≠ nullptr)
       (invocations_since (invocations w) (invocations w'))) /\
  (exists w',
     operator_assign_move a right w = Ok tt w' /\
     Forall (fun i => inv_arg i ≠ nullptr)
       (invocations_since (invocations w) (invocations w'))).
Proof.
  intros Ha Hr.
  assert (Hone : forall (l : list (Invocation DTy)) p x,
    Forall (fun i => inv_arg i ≠ nullptr)
      (invocations_since l
         (l ++ (if to_bool p
                then [ {| inv_deleter := m_deleter o; inv_arg := p;
                          inv_objects := x |} ]
                else [])))).
  { intros l p x. rewrite invocations_since_app.
    pose proof (to_bool_spec p) as Hp.
    destruct (to_bool p); repeat constructor. cbn. by apply Hp. }
  split; [|split].
  - eexists. rewrite (assign_ok _ _ _ h Ha). split; [reflexivity|].
    rewrite invocations_after_assign. apply Hone.
  - eexists. rewrite (destructor_ok _ _ _ Ha). split; [reflexivity|].
    pose proof (Hone (invocations w) (m_pointer o) (objects w)) as H1.
    destruct (to_bool (m_pointer o)); cbn in *; [exact H1|].
    by rewrite app_nil_r in H1.
  - destruct (decide (a = right)) as [<-|Hne].
    + eexists. rewrite (operator_assign_move_self _ _ _ Ha).
      split; [reflexivity|].
      cbn [invocations set_objects]. rewrite invocations_after_assign.
      cbn. rewrite app_nil_r. unfold invocations_since.
      rewrite drop_all. constructor.
    + eexists. rewrite (operator_assign_move_ok _ _ _ _ _ Ha Hr Hne).
      split; [reflexivity|].
      cbn [invocations set_objects]. rewrite invocations_after_assign.
      cbn [invocations set_objects]. apply Hone.
Qed.

End Further.

Section FactoryFurther.

Context {Ty Args DTy : Type} `{!Deleter DTy}.
Variable operator_new : gmap pointer_type Ty -> option pointer_type.
Variable value_type : Args -> exception + Ty.
Implicit Types (w : World Ty DTy) (p : pointer_type) (a b : loc).

(** X16.  What [create] makes is destroyed once: after
    [p = create(args)] and [q = std::move(p)], [*q] is the constructed
    value and [p] is empty; destroying [q] and [p] calls the
    default-constructed deleter exactly once, on the pointer [new]
    returned.  Apart from the new value the heap is as it was. *)
Theorem created_value_destroyed_once w a b (args : Args) p v :
  objects w !! a = None ->
  objects w !! b = None ->
  a ≠ b ->
  operator_new (heap w) = Some p ->
  p ≠ nullptr ->
  value_type args = inr v ->
  exists w1 w2 w3 w4 i,
    create operator_new value_type a args w = Ok tt w1 /\
    heap w1 = <[p := v]> (heap w) /\
    SmartPointer_move b a w1 = Ok tt w2 /\
    operator_star b w2 = Ok v w2 /\
    empty a w2 = Ok true w2 /\
    destructor b w2 = Ok tt w3 /\
    destructor a w3 = Ok tt w4 /\
    invocations w4 = invocations w ++ [i] /\
    inv_arg i = p /\
    inv_deleter i = default_init.
Proof.
  intros Ha Hb Hab Hnew Hnn Hv. eexists _, _, _, _, _.
  unfold create, new_value_type, bind at 1. rewrite Hnew, Hv.
  unfold SmartPointer_ptr. rewrite initialise_ok by done.
  split; [reflexivity|]. split; [reflexivity|].
  erewrite SmartPointer_move_ok; last first.
  { cbn. by rewrite lookup_insert_ne. }
  { cbn. apply lookup_insert_eq. }
  split; [reflexivity|].
  split.
  { unfold operator_star.
    erewrite bind_ok; [|apply load_pointer_ok; cbn; apply lookup_insert_eq].
    cbn. by rewrite lookup_insert_eq. }
  erewrite empty_ok; last first.
  { cbn. rewrite lookup_insert_ne by done. apply lookup_insert_eq. }
  split; [reflexivity|].
  erewrite destructor_ok by (cbn; apply lookup_insert_eq).
  cbn [m_pointer m_deleter]. rewrite (to_bool_true _ Hnn).
  split; [reflexivity|].
  erewrite destructor_ok; last first.
  { cbn. rewrite lookup_delete_ne, lookup_insert_ne by done.
    apply lookup_insert_eq. }
  cbn [m_pointer moved_out]. rewrite to_bool_nullptr.
  repeat split.
Qed.

End FactoryFurther.

Section Ownership.

Context {Ty DTy : Type} `{!Deleter DTy}.
Implicit Types (w : World Ty DTy) (o : SmartPointer DTy) (p h : pointer_type).
Implicit Types (this right a b c : loc).




(** X17.  Since [swap] exchanges the pointers and not the deleters,
    after [a.swap(b)] each pointer is destroyed by the other owner's
    deleter: destroying [a] calls [a]'s deleter on the pointer [b]
    held, and destroying [b] calls [b]'s deleter on the pointer [a]
    held. *)
Theorem swap_crosses_pointer_and_deleter w a b oa ob :
  objects w !! a = Some oa ->
  objects w !! b = Some ob ->
  a ≠ b ->
  m_pointer oa ≠ nullptr ->
  m_pointer ob ≠ nullptr ->
  exists w1 w2 w3 i1 i2,
    swap a b w = Ok tt w1 /\
    destructor a w1 = Ok tt w2 /\
    destructor b w2 = Ok tt w3 /\
    invocations w3 = invocations w ++ [i1; i2] /\
    inv_deleter i1 = m_deleter oa /\ inv_arg i1 = m_pointer ob /\
    inv_deleter i2 = m_deleter ob /\ inv_arg i2 = m_pointer oa.
Proof.
  intros Ha Hb Hne Hna Hnb. eexists _, _, _, _, _.
  unfold swap. rewrite (std_swap_pointers_ok _ _ _ _ _ Ha Hb).
  split; [reflexivity|].
  erewrite destructor_ok; last first.
  { cbn. rewrite lookup_insert_ne by done. apply lookup_insert_eq. }
  cbn [m_pointer m_deleter holding]. rewrite (to_bool_true _ Hnb).
  split; [reflexivity|].
  erewrite destructor_ok; last first.
  { cbn. rewrite lookup_delete_ne by done. apply lookup_insert_eq. }
  cbn [m_pointer m_deleter holding]. rewrite (to_bool_true _ Hna).
  split; [reflexivity|].
  cbn [invocations set_objects record_invocation].
  rewrite <- app_assoc. repeat split.
Qed.



End Ownership.

(** ** Concrete runs of the further properties *)

Lemma observers_agree_witness :
  get 0 one_owner = Ok 1%N one_owner /\
  operator_arrow 0 one_owner = Ok 1%N one_owner /\
  operator_pointer_type 0 one_owner = Ok 1%N one_owner /\
  deleter 0 one_owner = Ok 7 one_owner /\
  exists e t,
    empty 0 one_owner = Ok e one_owner /\
    operator_bool 0 one_owner = Ok t one_owner /\
    t = negb e /\
    (e = true <-> 1%N = nullptr).
Proof.
  apply (observers_agree one_owner 0 {| m_pointer := 1; m_deleter := 7 |}). reflexivity.
Defined.

Lemma construction_adopts_without_destroying_witness :
  (exists w',
     SmartPointer_ptr_deleter 0 1 7 (world_of ∅) = Ok tt w' /\
     get 0 w' = Ok 1%N w' /\ deleter 0 w' = Ok 7 w' /\
     invocations w' = invocations (world_of ∅) /\
     heap w' = heap (world_of ∅) /\
     forall c, c ≠ 0 -> objects w' !! c = objects (world_of ∅) !! c) /\
  (exists w',
     SmartPointer_ptr 0 1 (world_of ∅) = Ok tt w' /\
     get 0 w' = Ok 1%N w' /\ deleter 0 w' = Ok 0 w' /\
     invocations w' = invocations (world_of ∅) /\
     heap w' = heap (world_of ∅) /\
     forall c, c ≠ 0 -> objects w' !! c = objects (world_of ∅) !! c) /\
  (exists w',
     SmartPointer_default 0 (world_of ∅) = Ok tt w' /\
     empty 0 w' = Ok true w' /\ deleter 0 w' = Ok 0 w' /\
     invocations w' = invocations (world_of ∅) /\
     heap w' = heap (world_of ∅) /\
     forall c, c ≠ 0 -> objects w' !! c = objects (world_of ∅) !! c).
Proof.
  refine (construction_adopts_without_destroying (world_of ∅) 0 1%N 7 _).
  reflexivity.
Defined.

Lemma swap_with_raw_pointer_witness :
  exists w1,
    swap_pointer 0 5 one_owner = Ok 1%N w1 /\
    get 0 w1 = Ok 5%N w1 /\
    deleter 0 w1 = Ok 7 w1 /\
    invocations w1 = invocations one_owner /\
    swap_pointer 0 1 w1 = Ok 5%N one_owner.
Proof.
  apply (swap_with_raw_pointer one_owner 0 {| m_pointer := 1; m_deleter := 7 |} 5%N). reflexivity.
Defined.

Lemma swap_twice_restores_witness :
  exists w1, swap 0 1 two_owners = Ok tt w1 /\ swap 0 1 w1 = Ok tt two_owners.
Proof.
  apply (swap_twice_restores two_owners 0 1 {| m_pointer := 1; m_deleter := 7 |} {| m_pointer := 2; m_deleter := 9 |}); reflexivity.
Defined.

Lemma swap_symmetric_witness :
  (exists w', swap 0 1 two_owners = Ok tt w' /\ swap 1 0 two_owners = Ok tt w') /\
  swap 0 0 two_owners = Ok tt two_owners.
Proof.
  apply (swap_symmetric two_owners 0 1 {| m_pointer := 1; m_deleter := 7 |} {| m_pointer := 2; m_deleter := 9 |}); reflexivity.
Defined.

Lemma release_twice_witness :
  (exists w1,
     release 0 one_owner = Ok 1%N w1 /\
     release 0 w1 = Ok nullptr w1 /\
     (1%N = nullptr -> w1 = one_owner)) /\
  (exists w1,
     release 0 empty_owner = Ok nullptr w1 /\
     release 0 w1 = Ok nullptr w1 /\
     (nullptr = nullptr -> w1 = empty_owner)).
Proof.
  split.
  - apply (release_twice one_owner 0 {| m_pointer := 1; m_deleter := 7 |}). reflexivity.
  - apply (release_twice empty_owner 0 {| m_pointer := nullptr; m_deleter := 7 |}). reflexivity.
Defined.

Lemma assign_on_empty_adopts_silently_witness :
  exists w',
    assign 0 5 empty_owner = Ok tt w' /\
    get 0 w' = Ok 5%N w' /\
    deleter 0 w' = Ok 7 w' /\
    invocations w' = invocations empty_owner.
Proof.
  apply (assign_on_empty_adopts_silently empty_owner 0 {| m_pointer := nullptr; m_deleter := 7 |} 5%N); reflexivity.
Defined.

Lemma assign_nullptr_resets_witness :
  exists w1 w2,
    assign 0 nullptr one_owner = Ok tt w1 /\
    empty 0 w1 = Ok true w1 /\
    replacement_calls
      (invocations_since (invocations one_owner) (invocations w1)) {| m_pointer := 1; m_deleter := 7 |} /\
    destructor 0 w1 = Ok tt w2 /\
    invocations w2 = invocations w1.
Proof.
  apply (assign_nullptr_resets one_owner 0 {| m_pointer := 1; m_deleter := 7 |}). reflexivity.
Defined.


Lemma assign_own_pointer_destroys_it_witness :
  exists w1 w2 i1 i2,
    assign 0 1 one_owner = Ok tt w1 /\
    operator_assign_pointer 0 1 one_owner = Ok tt w1 /\
    get 0 w1 = Ok 1%N w1 /\
    invocations w1 = invocations one_owner ++ [i1] /\
    inv_arg i1 = 1%N /\
    destructor 0 w1 = Ok tt w2 /\
    invocations w2 = invocations one_owner ++ [i1; i2] /\
    inv_arg i2 = 1%N.
Proof.
  apply (assign_own_pointer_destroys_it one_owner 0 {| m_pointer := 1; m_deleter := 7 |});
    [reflexivity | discriminate].
Defined.

Lemma moved_pointer_destroyed_once_witness :
  exists w1 w2 w3 w4 w5,
    SmartPointer_move 1 0 one_owner = Ok tt w1 /\
    SmartPointer_move 2 1 w1 = Ok tt w2 /\
    destructor 0 w2 = Ok tt w3 /\
    destructor 1 w3 = Ok tt w4 /\
    destructor 2 w4 = Ok tt w5 /\
    replacement_calls
      (invocations_since (invocations one_owner) (invocations w5)) {| m_pointer := 1; m_deleter := 7 |}.
Proof.
  apply (moved_pointer_destroyed_once one_owner 0 1 2 {| m_pointer := 1; m_deleter := 7 |});
    [reflexivity | reflexivity | reflexivity | lia].
Defined.

Lemma move_assignment_carries_deleter_witness :
  exists w1 w2 w3,
    operator_assign_move 0 1 two_owners = Ok tt w1 /\
    deleter 0 w1 = Ok 9 w1 /\
    deleter 1 w1 = Ok 0 w1 /\
    destructor 0 w1 = Ok tt w2 /\
    replacement_calls
      (invocations_since (invocations w1) (invocations w2)) {| m_pointer := 2; m_deleter := 9 |} /\
    destructor 1 w2 = Ok tt w3 /\
    invocations w3 = invocations w2.
Proof.
  refine (move_assignment_carries_deleter two_owners 0 1
            {| m_pointer := 1; m_deleter := 7 |}
            {| m_pointer := 2; m_deleter := 9 |} _ _ _);
    [reflexivity | reflexivity | lia].
Defined.

Lemma conversion_default_deleter_witness :
  exists w1,
    operator_SmartPointer 0 1 empty_owner = Ok tt w1 /\
    get 1 w1 = Ok nullptr w1 /\
    deleter 1 w1 = Ok 0 w1 /\
    objects w1 !! 0 = Some {| m_pointer := nullptr; m_deleter := 7 |} /\
    invocations w1 = invocations empty_owner /\
    (nullptr = nullptr ->
     exists w2 w3,
       destructor 1 w1 = Ok tt w2 /\
       destructor 0 w2 = Ok tt w3 /\
       invocations w3 = invocations empty_owner).
Proof.
  refine (conversion_default_deleter empty_owner 0 1
            {| m_pointer := nullptr; m_deleter := 7 |} _ _);
    reflexivity.
Defined.


Lemma deleter_never_called_on_nullptr_witness :
  (exists w',
     assign 0 5 two_owners = Ok tt w' /\
     Forall (fun i => inv_arg i ≠ nullptr)
       (invocations_since (invocations two_owners) (invocations w'))) /\
  (exists w',
     destructor 0 two_owners = Ok tt w' /\
     Forall (fun i => inv_arg i ≠ nullptr)
       (invocations_since (invocations two_owners) (invocations w'))) /\
  (exists w',
     operator_assign_move 0 1 two_owners = Ok tt w' /\
     Forall (fun i => inv_arg i ≠ nullptr)
       (invocations_since (invocations two_owners) (invocations w'))).
Proof.
  apply (deleter_never_called_on_nullptr two_owners 0 1 {| m_pointer := 1; m_deleter := 7 |} {| m_pointer := 2; m_deleter := 9 |} 5%N);
    reflexivity.
Defined.

Lemma created_value_destroyed_once_witness :
  exists w1 w2 w3 w4 i,
    create (bounded_store 1) boxed_nat 0 5 no_objects = Ok tt w1 /\
    heap w1 = <[1%N := 5]> (heap no_objects) /\
    SmartPointer_move 1 0 w1 = Ok tt w2 /\
    operator_star 1 w2 = Ok 5 w2 /\
    empty 0 w2 = Ok true w2 /\
    destructor 1 w2 = Ok tt w3 /\
    destructor 0 w3 = Ok tt w4 /\
    invocations w4 = invocations no_objects ++ [i] /\
    inv_arg i = 1%N /\
    inv_deleter i = tt.
Proof.
  refine (created_value_destroyed_once (bounded_store 1) boxed_nat
            no_objects 0 1 5 1%N 5 _ _ _ _ _ _);
    [reflexivity | reflexivity | lia | reflexivity | discriminate | reflexivity].
Defined.

Lemma swap_crosses_pointer_and_deleter_witness :
  exists w1 w2 w3 i1 i2,
    swap 0 1 two_owners = Ok tt w1 /\
    destructor 0 w1 = Ok tt w2 /\
    destructor 1 w2 = Ok tt w3 /\
    invocations w3 = invocations two_owners ++ [i1; i2] /\
    inv_deleter i1 = 7 /\ inv_arg i1 = 2%N /\
    inv_deleter i2 = 9 /\ inv_arg i2 = 1%N.
Proof.
  apply (swap_crosses_pointer_and_deleter two_owners 0 1 {| m_pointer := 1; m_deleter := 7 |} {| m_pointer := 2; m_deleter := 9 |});
    [reflexivity | reflexivity | lia | discriminate | discriminate].
Defined.


